(** * clog: leveled logging to an io.Writer and the console

    A shallow embedding of package [clog] (Go): the [Level] constants, the
    level parser [levelOfStr], the constructor [New], the ten logging methods
    and the message composer ([compose], [composef], [pid], [caller]).

    The Go standard library the package calls is embedded first, each piece
    after its Go source: [fmt.Sprint], [io.MultiWriter], [ioutil.Discard],
    [log.New], [Logger.Print] and [Logger.Fatal] of [log], [os.Exit].
    What the operating system decides (the process id, the call stack, the
    clock) and [fmt.Sprintf] are fields of a [Runtime] record.

    Output streams are buffers that record every chunk written to them, in
    order; a write to the caller's sink or to a console stream appends one
    chunk and reports no error. *)

From Stdlib Require Import ZArith List Bool Ascii String Lia.
From Stdlib Require Import DecimalString.
Import ListNotations.

Local Open Scope string_scope.
Local Open Scope Z_scope.

(** ** The Go runtime the package relies on *)

(** [strconv]-style decimal rendering, as the verb [%d] prints an [int]. *)
Definition itoa (n : Z) : string := NilZero.string_of_int (Z.to_int n).

(** Package [fmt]. *)
Module fmt.

(** An operand of a variadic [...interface{}] call. [fmt.Sprint] only looks at
    whether the dynamic type is a string kind; every other value (nil
    included) comes with the text its default format [%v] prints. *)
Inductive Arg : Type :=
| Str (s : string)
| Val (printed : string).

Definition isString (a : Arg) : bool :=
  match a with Str _ => true | Val _ => false end.

Definition printArg (a : Arg) : string :=
  match a with Str s => s | Val p => p end.

(** [doPrint] of the printer: a space goes between two operands when neither is a
    string. [argNum0] is [argNum > 0]; [prevString] is the loop's variable. *)
Fixpoint doPrint (argNum0 prevString : bool) (a : list Arg) : string :=
  match a with
  | [] => ""
  | arg :: rest =>
      (if argNum0 && negb (isString arg) && negb prevString then " " else "")
      ++ printArg arg ++ doPrint true (isString arg) rest
  end.

Definition Sprint (a : list Arg) : string := doPrint false false a.

End fmt.

(** Package [io] with [ioutil.Discard] and the two console streams of [os]. *)
Module io.

(** Where bytes can end up. [Storage] is the writer the caller hands to
    [New]. *)
Inductive Dest : Type := Storage | Discard | Stdout | Stderr.

(** An [io.Writer] is the sequence of destinations a [Write] reaches, in
    order: one destination for a plain writer, several for a multi-writer. *)
Definition Writer : Type := list Dest.

(** [io.MultiWriter(writers...)] appends the writers, flattening nested
    multi-writers. *)
Definition MultiWriter (writers : list Writer) : Writer := List.concat writers.

End io.

(** The process as the logger can change it. *)
Record World : Type := mkWorld {
  storage_out : list string;   (* chunks written to the caller's sink *)
  stdout_out  : list string;   (* chunks written to os.Stdout *)
  stderr_out  : list string;   (* chunks written to os.Stderr *)
  exited      : option Z       (* Some code once os.Exit(code) has run *)
}.

Module os.

Definition Stdout : io.Writer := [io.Stdout].
Definition Stderr : io.Writer := [io.Stderr].

Definition Exit (code : Z) (st : World) : World :=
  mkWorld (storage_out st) (stdout_out st) (stderr_out st) (Some code).

End os.

Module ioutil.

Definition Discard : io.Writer := [io.Discard].

End ioutil.

(** One [Write] call on one destination. *)
Definition write_dest (d : io.Dest) (p : string) (st : World) : World :=
  match d with
  | io.Storage => mkWorld (storage_out st ++ [p])%list (stdout_out st) (stderr_out st) (exited st)
  | io.Discard => st
  | io.Stdout  => mkWorld (storage_out st) (stdout_out st ++ [p])%list (stderr_out st) (exited st)
  | io.Stderr  => mkWorld (storage_out st) (stdout_out st) (stderr_out st ++ [p])%list (exited st)
  end.

(** [Write] on a writer: the multi-writer's [Write] loops over its writers. *)
Fixpoint Write (w : io.Writer) (p : string) (st : World) : World :=
  match w with
  | [] => st
  | d :: w' => Write w' p (write_dest d p st)
  end.

(** What the package asks of the operating system and of [fmt.Sprintf]. *)
Record Runtime : Type := mkRuntime {
  Getpid  : Z;                                  (* os.Getpid() *)
  Caller  : Z -> option (string * Z);           (* runtime.Caller(skip): file, line when ok *)
  date    : string;                             (* the clock's local date, "2006/01/02" *)
  time    : string;                             (* the clock's local time, "15:04:05" *)
  Sprintf : string -> list fmt.Arg -> string    (* fmt.Sprintf *)
}.

(** Package [log]. *)
Module log.

Definition Ldate : Z := Z.shiftl 1 0.
Definition Ltime : Z := Z.shiftl 1 1.

Record Logger : Type := mkLogger {
  prefix : string;
  flag   : Z;
  out    : io.Writer
}.

Definition New (out : io.Writer) (prefix : string) (flag : Z) : Logger :=
  mkLogger prefix flag out.

(** [Logger.formatHeader]: the prefix, then the date and the time as the
    flags ask for them. Only [Ldate] and [Ltime] are modelled: [clog] sets no
    other flag. *)
Definition formatHeader (rt : Runtime) (l : Logger) : string :=
  prefix l
  ++ (if Z.land (flag l) Ldate =? 0 then "" else date rt ++ " ")
  ++ (if Z.land (flag l) Ltime =? 0 then "" else time rt ++ " ").

Fixpoint endsWithNewline (s : string) : bool :=
  match s with
  | EmptyString => false
  | String c EmptyString => Ascii.eqb c "010"%char
  | String _ s' => endsWithNewline s'
  end.

(** [Logger.Output]: header, text, a newline when the text does not end in
    one, all in a single [Write]. *)
Definition Output (rt : Runtime) (l : Logger) (s : string) (st : World) : World :=
  let buf := formatHeader rt l ++ s
             ++ (if endsWithNewline s then "" else String "010"%char "") in
  Write (out l) buf st.

(** [Logger.Print(v...)] is [Output(2, fmt.Sprint(v...))]. *)
Definition Print (rt : Runtime) (l : Logger) (v : list fmt.Arg) (st : World) : World :=
  Output rt l (fmt.Sprint v) st.

(** [Logger.Fatal(v...)] is [Print] followed by [os.Exit(1)]. *)
Definition Fatal (rt : Runtime) (l : Logger) (v : list fmt.Arg) (st : World) : World :=
  os.Exit 1 (Output rt l (fmt.Sprint v) st).

End log.

(** ** Package clog *)

(** [type Level int] with its [iota] constants. *)
Definition Level : Type := Z.

Definition DisabledLevel : Level := 0.
Definition ErrorLevel    : Level := 1.
Definition WarnLevel     : Level := 2.
Definition InfoLevel     : Level := 3.
Definition DebugLevel    : Level := 4.

(** A Go [error] value; [None] is [nil]. *)
Inductive goerror : Type :=
| errorString (message : string)   (* what fmt.Errorf returns, rendered *)
| InvalidLevelValue (value : Z).   (* the error of Level_Validate, see below *)

(** [levelOfStr]: the [switch] compares the cases top to bottom. *)
Definition levelOfStr (s : string) : Level * option goerror :=
  let level := InfoLevel in
  if (s =? "disabled")%string then (DisabledLevel, None)
  else if (s =? "error")%string then (ErrorLevel, None)
  else if (s =? "warning")%string then (WarnLevel, None)
  else if (s =? "info")%string then (InfoLevel, None)
  else if (s =? "debug")%string then (DebugLevel, None)
  else (level,
        Some (errorString ("invalid log level: " ++ s
                      ++ "; use one of: disabled | error | warning | info | debug "))).

(** [type logger struct]; a nil [*log.Logger] is [None], a nil [io.Writer]
    is [None]. *)
Record logger : Type := mklogger {
  level   : Level;
  w       : option io.Writer;
  verbose : bool;
  debug   : option log.Logger;
  info    : option log.Logger;
  warn    : option log.Logger;
  error   : option log.Logger;
  fatal   : option log.Logger
}.

Definition set_level (l : logger) (v : Level) : logger :=
  mklogger v (w l) (verbose l) (debug l) (info l) (warn l) (error l) (fatal l).
Definition set_debug (l : logger) (v : option log.Logger) : logger :=
  mklogger (level l) (w l) (verbose l) v (info l) (warn l) (error l) (fatal l).
Definition set_info (l : logger) (v : option log.Logger) : logger :=
  mklogger (level l) (w l) (verbose l) (debug l) v (warn l) (error l) (fatal l).
Definition set_warn (l : logger) (v : option log.Logger) : logger :=
  mklogger (level l) (w l) (verbose l) (debug l) (info l) v (error l) (fatal l).
Definition set_error (l : logger) (v : option log.Logger) : logger :=
  mklogger (level l) (w l) (verbose l) (debug l) (info l) (warn l) v (fatal l).
Definition set_fatal (l : logger) (v : option log.Logger) : logger :=
  mklogger (level l) (w l) (verbose l) (debug l) (info l) (warn l) (error l) v.

(** [New]. The struct literal leaves [level] at its zero value and the five
    loggers nil. The parameters [level] and [verbose] of the source are
    [levelName] and [verboseFlag] here; the fields keep the names. *)
Definition New (w : option io.Writer) (levelName : string) (verboseFlag : bool)
  : logger * option goerror :=
  let l := mklogger 0 w verboseFlag None None None None None in
  let '(lv, err) := levelOfStr levelName in
  match err with
  | Some e => (l, Some e)
  | None =>
      let l := set_level l lv in
      let flags := Z.lor log.Ldate log.Ltime in
      let storage := match w with
                     | None => ioutil.Discard
                     | Some w' => w'
                     end in
      let multiOut := io.MultiWriter [storage; os.Stdout] in
      let multiErr := io.MultiWriter [storage; os.Stderr] in
      let l := set_fatal l (Some (log.New multiErr "FATAL: " flags)) in
      if level l =? DisabledLevel then (l, None) else
      let l := set_error l (Some (log.New multiErr "ERROR: " flags)) in
      if level l =? ErrorLevel then (l, None) else
      let l := set_warn l (Some (log.New multiErr "WARN:  " flags)) in
      if level l =? WarnLevel then (l, None) else
      let l := set_info l (Some (log.New storage "INFO:  " flags)) in
      let l := if verbose l
               then set_info l (Some (log.New multiOut "INFO:  " flags))
               else l in
      if level l =? InfoLevel then (l, None) else
      let l := set_debug l (Some (log.New storage "DEBUG: " flags)) in
      let l := if verbose l
               then set_debug l (Some (log.New multiOut "DEBUG: " flags))
               else l in
      (l, None)
  end.

(** [pid]: the process id, at [DebugLevel] only. *)
Definition pid (rt : Runtime) (l : logger) : string :=
  let p := "" in
  if level l =? DebugLevel then "[" ++ itoa (Getpid rt) ++ "] " else p.

(** [caller]: file and line of the code that called the logger, at
    [DebugLevel] only. *)
Definition caller (rt : Runtime) (l : logger) : string :=
  let c := "" in
  if level l =? DebugLevel then
    let '(file, line) := match Caller rt 3 with
                         | Some fl => fl
                         | None => ("???", 0)
                         end in
    file ++ ":" ++ itoa line ++ " "
  else c.

(** [compose]: [fmt.Sprint] over the pid, the caller and the operands. *)
Definition compose (rt : Runtime) (l : logger) (msg : list fmt.Arg) : string :=
  let output := [fmt.Str (pid rt l); fmt.Str (caller rt l)] in
  let output := (output ++ msg)%list in
  fmt.Sprint output.

(** [composef]. *)
Definition composef (rt : Runtime) (l : logger) (format : string)
  (msg : list fmt.Arg) : string :=
  fmt.Sprint [fmt.Str (pid rt l); fmt.Str (caller rt l);
              fmt.Str (Sprintf rt format msg)].

Definition isNil {A : Type} (p : option A) : bool :=
  match p with None => true | Some _ => false end.

(** A method call on a [*log.Logger] field; the guards of the methods below
    return before a nil one is reached. *)
Definition on_logger (p : option log.Logger) (k : log.Logger -> World -> World)
  (st : World) : World :=
  match p with
  | Some lg => k lg st
  | None => st
  end.

Definition Fatal (rt : Runtime) (l : logger) (msg : list fmt.Arg) (st : World) : World :=
  if isNil (fatal l) then st
  else on_logger (fatal l) (fun lg => log.Fatal rt lg [fmt.Str (compose rt l msg)]) st.

Definition Fatalf (rt : Runtime) (l : logger) (format : string) (msg : list fmt.Arg)
  (st : World) : World :=
  if isNil (fatal l) then st
  else on_logger (fatal l) (fun lg => log.Fatal rt lg [fmt.Str (composef rt l format msg)]) st.

Definition Error (rt : Runtime) (l : logger) (msg : list fmt.Arg) (st : World) : World :=
  if (level l <? ErrorLevel) || isNil (error l) then st
  else on_logger (error l) (fun lg => log.Print rt lg [fmt.Str (compose rt l msg)]) st.

Definition Errorf (rt : Runtime) (l : logger) (format : string) (msg : list fmt.Arg)
  (st : World) : World :=
  if (level l <? ErrorLevel) || isNil (error l) then st
  else on_logger (error l) (fun lg => log.Print rt lg [fmt.Str (composef rt l format msg)]) st.

Definition Warn (rt : Runtime) (l : logger) (msg : list fmt.Arg) (st : World) : World :=
  if (level l <? WarnLevel) || isNil (warn l) then st
  else on_logger (warn l) (fun lg => log.Print rt lg [fmt.Str (compose rt l msg)]) st.

Definition Warnf (rt : Runtime) (l : logger) (format : string) (msg : list fmt.Arg)
  (st : World) : World :=
  if (level l <? WarnLevel) || isNil (warn l) then st
  else on_logger (warn l) (fun lg => log.Print rt lg [fmt.Str (composef rt l format msg)]) st.

Definition Info (rt : Runtime) (l : logger) (msg : list fmt.Arg) (st : World) : World :=
  if (level l <? InfoLevel) || isNil (info l) then st
  else on_logger (info l) (fun lg => log.Print rt lg [fmt.Str (compose rt l msg)]) st.

Definition Infof (rt : Runtime) (l : logger) (format : string) (msg : list fmt.Arg)
  (st : World) : World :=
  if (level l <? InfoLevel) || isNil (info l) then st
  else on_logger (info l) (fun lg => log.Print rt lg [fmt.Str (composef rt l format msg)]) st.

Definition Debug (rt : Runtime) (l : logger) (msg : list fmt.Arg) (st : World) : World :=
  if (level l <? DebugLevel) || isNil (debug l) then st
  else on_logger (debug l) (fun lg => log.Print rt lg [fmt.Str (compose rt l msg)]) st.

Definition Debugf (rt : Runtime) (l : logger) (format : string) (msg : list fmt.Arg)
  (st : World) : World :=
  if (level l <? DebugLevel) || isNil (debug l) then st
  else on_logger (debug l) (fun lg => log.Print rt lg [fmt.Str (composef rt l format msg)]) st.

(** The ten operations of the [Logger] interface, as calls a program makes. *)
Inductive Call : Type :=
| CallDebug (msg : list fmt.Arg) | CallDebugf (format : string) (msg : list fmt.Arg)
| CallInfo (msg : list fmt.Arg)  | CallInfof (format : string) (msg : list fmt.Arg)
| CallWarn (msg : list fmt.Arg)  | CallWarnf (format : string) (msg : list fmt.Arg)
| CallError (msg : list fmt.Arg) | CallErrorf (format : string) (msg : list fmt.Arg)
| CallFatal (msg : list fmt.Arg) | CallFatalf (format : string) (msg : list fmt.Arg).

Definition invoke (rt : Runtime) (l : logger) (c : Call) : World -> World :=
  match c with
  | CallDebug msg => Debug rt l msg   | CallDebugf f msg => Debugf rt l f msg
  | CallInfo msg  => Info rt l msg    | CallInfof f msg  => Infof rt l f msg
  | CallWarn msg  => Warn rt l msg    | CallWarnf f msg  => Warnf rt l f msg
  | CallError msg => Error rt l msg   | CallErrorf f msg => Errorf rt l f msg
  | CallFatal msg => Fatal rt l msg   | CallFatalf f msg => Fatalf rt l f msg
  end.

(** A program that makes the calls one after the other: once the process has
    exited nothing further runs. *)
Fixpoint run (rt : Runtime) (l : logger) (calls : list Call) (st : World) : World :=
  match calls with
  | [] => st
  | c :: rest =>
      match exited st with
      | Some _ => st
      | None => run rt l rest (invoke rt l c st)
      end
  end.

(** Modelled from the spec: the method [Level.String], which the tests call
    and the package source does not define. It is the inverse of
    [levelOfStr] on the five levels and the empty string everywhere else. *)
Definition Level_String (l : Level) : string :=
  if l =? DisabledLevel then "disabled"
  else if l =? ErrorLevel then "error"
  else if l =? WarnLevel then "warning"
  else if l =? InfoLevel then "info"
  else if l =? DebugLevel then "debug"
  else "".

(** The five levels of the [const] block. *)
Definition levels : list Level :=
  [DisabledLevel; ErrorLevel; WarnLevel; InfoLevel; DebugLevel].

Definition isLevel (l : Level) : bool :=
  (DisabledLevel <=? l) && (l <=? DebugLevel).

(** Modelled from the spec: the method [Level.Validate], which the tests call
    and the package source does not define. It returns nil for the five
    levels, and for every other value an error that names the value. *)
Definition Level_Validate (l : Level) : option goerror :=
  if isLevel l then None else Some (InvalidLevelValue l).

(** The five level names, in the order of the levels. *)
Definition levelNames : list string :=
  ["disabled"; "error"; "warning"; "info"; "debug"].

(** ** Vocabulary of the statements *)

(** The writer a caller hands to [New] as the persistent sink. *)
Definition sink : io.Writer := [io.Storage].

(** [New]'s first argument: the sink, or nil. *)
Definition sinkArg (present : bool) : option io.Writer :=
  if present then Some sink else None.

(** One chunk [p] appended to the chosen buffers, nothing else changed. *)
Definition appendTo (toStorage toStdout toStderr : bool) (p : string) (st : World)
  : World :=
  mkWorld (if toStorage then storage_out st ++ [p] else storage_out st)%list
          (if toStdout then stdout_out st ++ [p] else stdout_out st)%list
          (if toStderr then stderr_out st ++ [p] else stderr_out st)%list
          (exited st).

Definition newline : string := String "010"%char "".

(** A log line: severity tag, date, time, text, and a closing newline when
    the text has none. *)
Definition line (rt : Runtime) (tag body : string) : string :=
  tag ++ date rt ++ " " ++ time rt ++ " " ++ body
  ++ (if log.endsWithNewline body then "" else newline).

(** The call-site prefix at [DebugLevel]. *)
Definition callSite (rt : Runtime) : string :=
  match Caller rt 3 with
  | Some (file, ln) => file ++ ":" ++ itoa ln ++ " "
  | None => "???:0 "
  end.

(** The loggers [New] wires for a parsed level: the table of severities. *)
Definition wired (present : bool) (lv : Level) (v : bool) : logger :=
  let storage := if present then sink else ioutil.Discard in
  let toErr := (storage ++ os.Stderr)%list in
  let toOut := if v then (storage ++ os.Stdout)%list else storage in
  mklogger lv (sinkArg present) v
    (if DebugLevel <=? lv then Some (log.New toOut "DEBUG: " 3) else None)
    (if InfoLevel <=? lv then Some (log.New toOut "INFO:  " 3) else None)
    (if WarnLevel <=? lv then Some (log.New toErr "WARN:  " 3) else None)
    (if ErrorLevel <=? lv then Some (log.New toErr "ERROR: " 3) else None)
    (Some (log.New toErr "FATAL: " 3)).

(** The logger [New] hands back next to a parse error. *)
Definition bare (w : option io.Writer) (v : bool) : logger :=
  mklogger 0 w v None None None None None.

(** A runtime and a world to evaluate the package on. *)
Definition rt0 : Runtime :=
  mkRuntime 4711 (fun _ => Some ("main.go", 27)) "2017/05/01" "10:00:00"
            (fun format _ => format).

Definition world0 : World := mkWorld [] [] [] None.

(** ** Whole programs *)

Definition isFatal (c : Call) : bool :=
  match c with
  | CallFatal _ | CallFatalf _ _ => true
  | _ => false
  end.

(** Whether a call gets past the level test of its method at level [lv]. *)
Definition passes (lv : Level) (c : Call) : bool :=
  match c with
  | CallDebug _ | CallDebugf _ _ => DebugLevel <=? lv
  | CallInfo _ | CallInfof _ _ => InfoLevel <=? lv
  | CallWarn _ | CallWarnf _ _ => WarnLevel <=? lv
  | CallError _ | CallErrorf _ _ => ErrorLevel <=? lv
  | CallFatal _ | CallFatalf _ _ => true
  end.

(** The severities whose console stream is standard error. *)
Definition toStderr (c : Call) : bool :=
  match c with
  | CallWarn _ | CallWarnf _ _ | CallError _ | CallErrorf _ _
  | CallFatal _ | CallFatalf _ _ => true
  | _ => false
  end.

Definition tagOf (c : Call) : string :=
  match c with
  | CallDebug _ | CallDebugf _ _ => "DEBUG: "
  | CallInfo _ | CallInfof _ _ => "INFO:  "
  | CallWarn _ | CallWarnf _ _ => "WARN:  "
  | CallError _ | CallErrorf _ _ => "ERROR: "
  | CallFatal _ | CallFatalf _ _ => "FATAL: "
  end.

(** The text a call composes: [compose] for the plain methods, [composef]
    for the formatted ones. *)
Definition textOf (rt : Runtime) (l : logger) (c : Call) : string :=
  match c with
  | CallDebug msg | CallInfo msg | CallWarn msg | CallError msg | CallFatal msg =>
      compose rt l msg
  | CallDebugf f msg | CallInfof f msg | CallWarnf f msg | CallErrorf f msg
  | CallFatalf f msg =>
      composef rt l f msg
  end.

Definition lineOf (rt : Runtime) (l : logger) (c : Call) : string :=
  line rt (tagOf c) (textOf rt l c).

(** The calls of a program that are reached: all of them up to and including
    the first fatal one. *)
Fixpoint executed (calls : list Call) : list Call :=
  match calls with
  | [] => []
  | c :: rest => if isFatal c then [c] else c :: executed rest
  end.

(** The lines a program leaves in the sink, on standard error and on
    standard output (the last when the verbose flag is set). *)
Definition sinkLines (rt : Runtime) (l : logger) (calls : list Call) : list string :=
  map (lineOf rt l) (filter (passes (level l)) (executed calls)).

Definition stderrLines (rt : Runtime) (l : logger) (calls : list Call) : list string :=
  map (lineOf rt l)
      (filter (fun c => passes (level l) c && toStderr c) (executed calls)).

Definition stdoutLines (rt : Runtime) (l : logger) (calls : list Call) : list string :=
  map (lineOf rt l)
      (filter (fun c => passes (level l) c && negb (toStderr c)) (executed calls)).


(** ** Strings and [fmt.Sprint] *)

Lemma append_assoc (a b c : string) : (a ++ b) ++ c = a ++ b ++ c.
Proof.
  induction a as [|ch a IH]; simpl; [reflexivity | now rewrite IH].
Qed.

Lemma append_nil_r (a : string) : a ++ "" = a.
Proof.
  induction a as [|ch a IH]; simpl; [reflexivity | now rewrite IH].
Qed.

(** After a string operand no space is inserted, whatever comes next. *)
Lemma doPrint_after_string (b : bool) (a : list fmt.Arg) :
  fmt.doPrint b true a = fmt.doPrint false false a.
Proof.
  destruct a as [|arg rest]; [reflexivity|].
  simpl. now rewrite andb_false_r.
Qed.

Lemma Sprint_string_cons (s : string) (a : list fmt.Arg) :
  fmt.Sprint (fmt.Str s :: a) = s ++ fmt.Sprint a.
Proof.
  unfold fmt.Sprint. simpl. now rewrite doPrint_after_string.
Qed.

Lemma Sprint_one_string (s : string) : fmt.Sprint [fmt.Str s] = s.
Proof.
  rewrite Sprint_string_cons. apply append_nil_r.
Qed.

(** ** The level parser *)

Lemma levelOfStr_parsed (s : string) (lv : Level) :
  levelOfStr s = (lv, None) ->
  (s = "disabled" /\ lv = DisabledLevel) \/ (s = "error" /\ lv = ErrorLevel) \/
  (s = "warning" /\ lv = WarnLevel) \/ (s = "info" /\ lv = InfoLevel) \/
  (s = "debug" /\ lv = DebugLevel).
Proof.
  unfold levelOfStr.
  destruct (String.eqb_spec s "disabled") as [->|_]; [intros [= <-]; tauto|].
  destruct (String.eqb_spec s "error") as [->|_]; [intros [= <-]; tauto|].
  destruct (String.eqb_spec s "warning") as [->|_]; [intros [= <-]; tauto|].
  destruct (String.eqb_spec s "info") as [->|_]; [intros [= <-]; tauto|].
  destruct (String.eqb_spec s "debug") as [->|_]; [intros [= <-]; tauto|].
  discriminate.
Qed.

Lemma levelOfStr_unknown (s : string) :
  ~ In s levelNames ->
  levelOfStr s =
    (InfoLevel,
     Some (errorString ("invalid log level: " ++ s
             ++ "; use one of: disabled | error | warning | info | debug "))).
Proof.
  intros H. unfold levelOfStr.
  destruct (String.eqb_spec s "disabled") as [->|_]; [exfalso; apply H; simpl; tauto|].
  destruct (String.eqb_spec s "error") as [->|_]; [exfalso; apply H; simpl; tauto|].
  destruct (String.eqb_spec s "warning") as [->|_]; [exfalso; apply H; simpl; tauto|].
  destruct (String.eqb_spec s "info") as [->|_]; [exfalso; apply H; simpl; tauto|].
  destruct (String.eqb_spec s "debug") as [->|_]; [exfalso; apply H; simpl; tauto|].
  reflexivity.
Qed.

(** ** Construction *)

(** With a level that parses, [New] returns the wired logger and no error. *)
Lemma New_wired (present : bool) (s : string) (lv : Level) (v : bool) :
  levelOfStr s = (lv, None) ->
  New (sinkArg present) s v = (wired present lv v, None).
Proof.
  intros H.
  destruct (levelOfStr_parsed s lv H) as [[-> ->]|[[-> ->]|[[-> ->]|[[-> ->]|[-> ->]]]]];
    destruct present, v; reflexivity.
Qed.

(** With a level that does not parse, [New] returns the bare logger and the
    parser's error. *)
Lemma New_bare (w : option io.Writer) (s : string) (v : bool) (lv : Level) (e : goerror) :
  levelOfStr s = (lv, Some e) ->
  New w s v = (bare w v, Some e).
Proof.
  intros H. unfold New. now rewrite H.
Qed.

(** ** Writing a line *)

Lemma appendTo_nowhere (p : string) (st : World) : appendTo false false false p st = st.
Proof.
  now destruct st.
Qed.

(** The writer of the error console side: the sink when there is one, then
    standard error. *)
Lemma Write_toErr (present : bool) (p : string) (st : World) :
  Write ((if present then sink else ioutil.Discard) ++ os.Stderr)%list p st
  = appendTo present false true p st.
Proof.
  destruct present; reflexivity.
Qed.

(** The writer of the output side: the sink when there is one, and standard
    output when the verbose flag is set. *)
Lemma Write_toOut (present v : bool) (p : string) (st : World) :
  Write (if v then ((if present then sink else ioutil.Discard) ++ os.Stdout)%list
         else if present then sink else ioutil.Discard) p st
  = appendTo present v false p st.
Proof.
  destruct present, v; try reflexivity. simpl. now rewrite appendTo_nowhere.
Qed.

(** [Output] on a logger made with the flags of [New] writes one [line]. *)
Lemma Output_line (rt : Runtime) (out : io.Writer) (tag body : string) (st : World) :
  log.Output rt (log.New out tag 3) body st = Write out (line rt tag body) st.
Proof.
  unfold log.Output, log.formatHeader, line, newline. simpl.
  now rewrite !append_assoc.
Qed.

Lemma Print_line (rt : Runtime) (out : io.Writer) (tag body : string) (st : World) :
  log.Print rt (log.New out tag 3) [fmt.Str body] st = Write out (line rt tag body) st.
Proof.
  unfold log.Print. rewrite Sprint_one_string. apply Output_line.
Qed.

Lemma Fatal_line (rt : Runtime) (out : io.Writer) (tag body : string) (st : World) :
  log.Fatal rt (log.New out tag 3) [fmt.Str body] st
  = os.Exit 1 (Write out (line rt tag body) st).
Proof.
  unfold log.Fatal. rewrite Sprint_one_string. now rewrite Output_line.
Qed.

(** The guard of a leveled method in front of a logger that [New] wires from
    severity [sev] on. *)
Lemma guarded_Print (rt : Runtime) (sev lv : Level) (out : io.Writer)
  (tag body : string) (st : World) :
  let p := if sev <=? lv then Some (log.New out tag 3) else None in
  (if (lv <? sev) || isNil p then st
   else on_logger p (fun lg => log.Print rt lg [fmt.Str body]) st)
  = if sev <=? lv then Write out (line rt tag body) st else st.
Proof.
  simpl. destruct (Z.leb_spec sev lv) as [Hle|Hlt].
  - assert ((lv <? sev) = false) as -> by (apply Z.ltb_ge; exact Hle).
    simpl. apply Print_line.
  - now rewrite orb_true_r.
Qed.

(** ** What each method does on a wired logger *)

(** Unfold a leveled method, go through its guard, and read the write off
    the writer's lemma. *)
Ltac through_guard method write_lemma :=
  unfold method; etransitivity; [apply guarded_Print|]; now rewrite write_lemma.

(** A goal [sev <= lv -> _] whose conclusion tests [sev <=? lv]. *)
Ltac enabled :=
  let Hle := fresh "Hle" in
  intros Hle; apply Z.leb_le in Hle; rewrite Hle; try split; reflexivity.

Section Wired.

Variable rt : Runtime.
Variables present v : bool.
Variable lv : Level.

Let l := wired present lv v.

Lemma Error_wired (msg : list fmt.Arg) (st : World) :
  Error rt l msg st =
  if ErrorLevel <=? lv
  then appendTo present false true (line rt "ERROR: " (compose rt l msg)) st else st.
Proof.
  through_guard Error Write_toErr.
Qed.

Lemma Errorf_wired (format : string) (msg : list fmt.Arg) (st : World) :
  Errorf rt l format msg st =
  if ErrorLevel <=? lv
  then appendTo present false true (line rt "ERROR: " (composef rt l format msg)) st
  else st.
Proof.
  through_guard Errorf Write_toErr.
Qed.

Lemma Warn_wired (msg : list fmt.Arg) (st : World) :
  Warn rt l msg st =
  if WarnLevel <=? lv
  then appendTo present false true (line rt "WARN:  " (compose rt l msg)) st else st.
Proof.
  through_guard Warn Write_toErr.
Qed.

Lemma Warnf_wired (format : string) (msg : list fmt.Arg) (st : World) :
  Warnf rt l format msg st =
  if WarnLevel <=? lv
  then appendTo present false true (line rt "WARN:  " (composef rt l format msg)) st
  else st.
Proof.
  through_guard Warnf Write_toErr.
Qed.

Lemma Info_wired (msg : list fmt.Arg) (st : World) :
  Info rt l msg st =
  if InfoLevel <=? lv
  then appendTo present v false (line rt "INFO:  " (compose rt l msg)) st else st.
Proof.
  through_guard Info Write_toOut.
Qed.

Lemma Infof_wired (format : string) (msg : list fmt.Arg) (st : World) :
  Infof rt l format msg st =
  if InfoLevel <=? lv
  then appendTo present v false (line rt "INFO:  " (composef rt l format msg)) st
  else st.
Proof.
  through_guard Infof Write_toOut.
Qed.

Lemma Debug_wired (msg : list fmt.Arg) (st : World) :
  Debug rt l msg st =
  if DebugLevel <=? lv
  then appendTo present v false (line rt "DEBUG: " (compose rt l msg)) st else st.
Proof.
  through_guard Debug Write_toOut.
Qed.

Lemma Debugf_wired (format : string) (msg : list fmt.Arg) (st : World) :
  Debugf rt l format msg st =
  if DebugLevel <=? lv
  then appendTo present v false (line rt "DEBUG: " (composef rt l format msg)) st
  else st.
Proof.
  through_guard Debugf Write_toOut.
Qed.

Lemma Fatal_wired (msg : list fmt.Arg) (st : World) :
  Fatal rt l msg st =
  os.Exit 1 (appendTo present false true (line rt "FATAL: " (compose rt l msg)) st).
Proof.
  unfold Fatal. simpl. rewrite Fatal_line. now rewrite Write_toErr.
Qed.

Lemma Fatalf_wired (format : string) (msg : list fmt.Arg) (st : World) :
  Fatalf rt l format msg st =
  os.Exit 1
    (appendTo present false true (line rt "FATAL: " (composef rt l format msg)) st).
Proof.
  unfold Fatalf. simpl. rewrite Fatal_line. now rewrite Write_toErr.
Qed.

End Wired.

(** ** Levels: names, parsing, validation *)

Lemma isLevel_In (l : Level) : isLevel l = true <-> In l levels.
Proof.
  unfold isLevel, levels, DisabledLevel, ErrorLevel, WarnLevel, InfoLevel, DebugLevel.
  rewrite andb_true_iff, !Z.leb_le. simpl. lia.
Qed.

Lemma isLevel_false (l : Level) : isLevel l = false <-> ~ In l levels.
Proof.
  rewrite <- isLevel_In. destruct (isLevel l); split; congruence.
Qed.

(** C1. Round trip of the level names: for each of the five levels, parsing
    the level's string gives back that level and no error; and each of the
    five level names parses, without error, to a level whose string is that
    name. *)
Theorem level_string_roundtrip :
  (forall l : Level, In l levels -> levelOfStr (Level_String l) = (l, None)) /\
  (forall s : string, In s levelNames ->
     exists l : Level,
       levelOfStr s = (l, None) /\ In l levels /\ Level_String l = s).
Proof.
  split.
  - intros l Hl. simpl in Hl.
    destruct Hl as [<-|[<-|[<-|[<-|[<-|[]]]]]]; reflexivity.
  - intros s Hs. simpl in Hs.
    destruct Hs as [<-|[<-|[<-|[<-|[<-|[]]]]]];
      eexists; (split; [reflexivity | split; [simpl; tauto | reflexivity]]).
Qed.

Lemma level_string_roundtrip_witness :
  levelOfStr (Level_String WarnLevel) = (WarnLevel, None) /\
  exists l : Level,
    levelOfStr "warning" = (l, None) /\ In l levels /\ Level_String l = "warning".
Proof.
  split.
  - apply (proj1 level_string_roundtrip WarnLevel). simpl. tauto.
  - apply (proj2 level_string_roundtrip "warning"). simpl. tauto.
Defined.

(** C3, as stated, fails: for the inputs "nonsense" and the empty string the
    parser returns, next to its error, [InfoLevel], which is one of the five
    levels; so no value outside the five (no Invalid sentinel) is returned. *)
Lemma levelOfStr_nonsense_returns_InfoLevel :
  levelOfStr "nonsense" =
    (InfoLevel,
     Some (errorString
       "invalid log level: nonsense; use one of: disabled | error | warning | info | debug "))
  /\ fst (levelOfStr "") = InfoLevel
  /\ isLevel InfoLevel = true
  /\ ~ (exists (sentinel : Level) (e : goerror),
          isLevel sentinel = false /\ levelOfStr "nonsense" = (sentinel, Some e)).
Proof.
  repeat split.
  intros (sentinel & e & Hs & Heq).
  injection Heq as <- _. discriminate Hs.
Qed.

(** C3, amended. For every input other than the five level names, the empty
    string included, the parser returns the level [InfoLevel] together with
    an error whose message names the input and lists the valid names. *)
Theorem levelOfStr_rejects (s : string) :
  ~ In s levelNames ->
  levelOfStr s =
    (InfoLevel,
     Some (errorString ("invalid log level: " ++ s
             ++ "; use one of: disabled | error | warning | info | debug "))).
Proof.
  apply levelOfStr_unknown.
Qed.

Lemma levelOfStr_rejects_witness :
  levelOfStr "" =
    (InfoLevel,
     Some (errorString ("invalid log level: " ++ ""
             ++ "; use one of: disabled | error | warning | info | debug "))).
Proof.
  apply (levelOfStr_rejects "").
  simpl. intros [H|[H|[H|[H|[H|[]]]]]]; discriminate H.
Defined.

Section Sentinel.

(** The constant [InvalidLevel] that the tests name; the [const] block of the
    package source does not declare it. Only this much of it is used: it is
    none of the five levels. *)
Variable InvalidLevel : Level.
Hypothesis InvalidLevel_no_level : isLevel InvalidLevel = false.

(** C8. [Level_String] is a total function: it gives each of the five levels
    its name, and the empty string to the Invalid sentinel and to every other
    value outside the five, 999 among them. *)
Theorem Level_String_total :
  Level_String DisabledLevel = "disabled" /\
  Level_String ErrorLevel = "error" /\
  Level_String WarnLevel = "warning" /\
  Level_String InfoLevel = "info" /\
  Level_String DebugLevel = "debug" /\
  Level_String InvalidLevel = "" /\
  (forall l : Level, ~ In l levels -> Level_String l = "") /\
  Level_String 999 = "".
Proof.
  assert (forall l : Level, ~ In l levels -> Level_String l = "") as Hout.
  { intros l Hl. unfold Level_String.
    destruct (Z.eqb_spec l DisabledLevel) as [->|_]; [exfalso; apply Hl; simpl; tauto|].
    destruct (Z.eqb_spec l ErrorLevel) as [->|_]; [exfalso; apply Hl; simpl; tauto|].
    destruct (Z.eqb_spec l WarnLevel) as [->|_]; [exfalso; apply Hl; simpl; tauto|].
    destruct (Z.eqb_spec l InfoLevel) as [->|_]; [exfalso; apply Hl; simpl; tauto|].
    destruct (Z.eqb_spec l DebugLevel) as [->|_]; [exfalso; apply Hl; simpl; tauto|].
    reflexivity. }
  repeat split; try reflexivity.
  - apply Hout, isLevel_false, InvalidLevel_no_level.
  - exact Hout.
Qed.

(** C9. [Level_Validate] returns nil for exactly the five levels; for the
    Invalid sentinel and every other value outside the five, 999 among them,
    it returns an error that names the value. *)
Theorem Level_Validate_exact :
  (forall l : Level, In l levels -> Level_Validate l = None) /\
  (forall l : Level, Level_Validate l = None -> In l levels) /\
  Level_Validate InvalidLevel = Some (InvalidLevelValue InvalidLevel) /\
  (forall l : Level, ~ In l levels -> Level_Validate l = Some (InvalidLevelValue l)) /\
  Level_Validate 999 = Some (InvalidLevelValue 999).
Proof.
  unfold Level_Validate. repeat split.
  - intros l Hl. apply isLevel_In in Hl. now rewrite Hl.
  - intros l. destruct (isLevel l) eqn:E; [intros _; now apply isLevel_In | discriminate].
  - now rewrite InvalidLevel_no_level.
  - intros l Hl. apply isLevel_false in Hl. now rewrite Hl.
Qed.

End Sentinel.

Lemma Level_String_total_witness : Level_String (-1) = "".
Proof.
  exact (proj1 (proj2 (proj2 (proj2 (proj2 (proj2
    (Level_String_total (-1) eq_refl))))))).
Defined.

Lemma Level_Validate_exact_witness :
  Level_Validate (-1) = Some (InvalidLevelValue (-1)).
Proof.
  exact (proj1 (proj2 (proj2 (Level_Validate_exact (-1) eq_refl)))).
Defined.

(** ** Composing the text *)

Lemma compose_eq (rt : Runtime) (l : logger) (msg : list fmt.Arg) :
  compose rt l msg =
  if level l =? DebugLevel
  then "[" ++ itoa (Getpid rt) ++ "] " ++ callSite rt ++ fmt.Sprint msg
  else fmt.Sprint msg.
Proof.
  unfold compose, pid, caller, callSite. simpl app.
  rewrite !Sprint_string_cons.
  destruct (level l =? DebugLevel); [|reflexivity].
  destruct (Caller rt 3) as [[file ln]|]; simpl; now rewrite !append_assoc.
Qed.

Lemma composef_eq (rt : Runtime) (l : logger) (format : string) (msg : list fmt.Arg) :
  composef rt l format msg =
  if level l =? DebugLevel
  then "[" ++ itoa (Getpid rt) ++ "] " ++ callSite rt ++ Sprintf rt format msg
  else Sprintf rt format msg.
Proof.
  unfold composef, pid, caller, callSite.
  rewrite !Sprint_string_cons. unfold fmt.Sprint, fmt.doPrint. rewrite append_nil_r.
  destruct (level l =? DebugLevel); [|reflexivity].
  destruct (Caller rt 3) as [[file ln]|]; simpl; now rewrite !append_assoc.
Qed.

(** ** Construction, read backwards *)

Lemma New_ok_inv (present : bool) (s : string) (v : bool) (l : logger) :
  New (sinkArg present) s v = (l, None) ->
  exists lv : Level,
    In lv levels /\ levelOfStr s = (lv, None) /\ l = wired present lv v.
Proof.
  intros H. destruct (levelOfStr s) as [lv [e|]] eqn:E.
  - rewrite (New_bare _ _ _ _ _ E) in H. discriminate H.
  - rewrite (New_wired present _ _ v E) in H. injection H as <-.
    exists lv. split; [|split; reflexivity].
    destruct (levelOfStr_parsed s lv E) as [[_ ->]|[[_ ->]|[[_ ->]|[[_ ->]|[_ ->]]]]];
      simpl; tauto.
Qed.

Lemma New_ok_names (s : string) :
  In s levelNames -> exists lv : Level, In lv levels /\ levelOfStr s = (lv, None).
Proof.
  simpl. intros [<-|[<-|[<-|[<-|[<-|[]]]]]]; eexists; (split; [|reflexivity]); simpl; tauto.
Qed.

(** ** The constructor after a parse error *)




(** ** Fatal *)

(** C4. On a logger that [New] built without error, at any level, Disabled
    included, [Fatal] and [Fatalf] write one line, tagged "FATAL: " and
    stamped with date and time, to the sink and to standard error, and then
    end the process with status 1; no later call runs. *)
Theorem Fatal_never_suppressed (rt : Runtime) (s : string) (v : bool) (l : logger) :
  New (Some sink) s v = (l, None) ->
  forall (format : string) (msg : list fmt.Arg) (st : World),
    Fatal rt l msg st
      = os.Exit 1 (appendTo true false true (line rt "FATAL: " (compose rt l msg)) st) /\
    Fatalf rt l format msg st
      = os.Exit 1
          (appendTo true false true (line rt "FATAL: " (composef rt l format msg)) st) /\
    exited (Fatal rt l msg st) = Some 1 /\
    exited (Fatalf rt l format msg st) = Some 1 /\
    (exited st = None ->
     forall rest : list Call,
       run rt l (CallFatal msg :: rest) st = Fatal rt l msg st /\
       run rt l (CallFatalf format msg :: rest) st = Fatalf rt l format msg st).
Proof.
  intros H format msg st.
  destruct (New_ok_inv true s v l H) as (lv & _ & _ & ->).
  rewrite Fatal_wired, Fatalf_wired.
  split; [reflexivity|]. split; [reflexivity|].
  split; [reflexivity|]. split; [reflexivity|].
  intros Hrunning rest. simpl. rewrite Hrunning. simpl.
  rewrite Fatal_wired, Fatalf_wired.
  destruct rest; split; reflexivity.
Qed.

Lemma Fatal_never_suppressed_witness :
  Fatal rt0 (wired true DisabledLevel true) [fmt.Str "abort"] world0
  = mkWorld ["FATAL: 2017/05/01 10:00:00 abort" ++ newline] []
            ["FATAL: 2017/05/01 10:00:00 abort" ++ newline] (Some 1).
Proof.
  destruct (Fatal_never_suppressed rt0 "disabled" true
              (wired true DisabledLevel true) eq_refl
              "" [fmt.Str "abort"] world0) as [H _].
  rewrite H. reflexivity.
Defined.

(** ** Fan-out *)

(** C5. On a logger built with the sink, every enabled severity writes its
    line to the sink; Error and Warn also write it to standard error whatever
    the verbose flag is; Info and Debug also write it to standard output
    exactly when the verbose flag is set. At level "info" without the verbose
    flag an Info call reaches the sink only, a Debug call changes nothing,
    and an Error call reaches the sink and standard error. *)
Theorem fanout (rt : Runtime) (s : string) (v : bool) (l : logger) :
  New (Some sink) s v = (l, None) ->
  forall (format : string) (msg : list fmt.Arg) (st : World),
    (ErrorLevel <= level l ->
       Error rt l msg st
         = appendTo true false true (line rt "ERROR: " (compose rt l msg)) st /\
       Errorf rt l format msg st
         = appendTo true false true (line rt "ERROR: " (composef rt l format msg)) st) /\
    (WarnLevel <= level l ->
       Warn rt l msg st
         = appendTo true false true (line rt "WARN:  " (compose rt l msg)) st /\
       Warnf rt l format msg st
         = appendTo true false true (line rt "WARN:  " (composef rt l format msg)) st) /\
    (InfoLevel <= level l ->
       Info rt l msg st
         = appendTo true v false (line rt "INFO:  " (compose rt l msg)) st /\
       Infof rt l format msg st
         = appendTo true v false (line rt "INFO:  " (composef rt l format msg)) st) /\
    (DebugLevel <= level l ->
       Debug rt l msg st
         = appendTo true v false (line rt "DEBUG: " (compose rt l msg)) st /\
       Debugf rt l format msg st
         = appendTo true v false (line rt "DEBUG: " (composef rt l format msg)) st) /\
    (s = "info" -> v = false ->
       Info rt l msg st
         = mkWorld (storage_out st ++ [line rt "INFO:  " (fmt.Sprint msg)])%list
                   (stdout_out st) (stderr_out st) (exited st) /\
       Debug rt l msg st = st /\
       Error rt l msg st
         = mkWorld (storage_out st ++ [line rt "ERROR: " (fmt.Sprint msg)])%list
                   (stdout_out st)
                   (stderr_out st ++ [line rt "ERROR: " (fmt.Sprint msg)])%list
                   (exited st)).
Proof.
  intros H format msg st.
  destruct (New_ok_inv true s v l H) as (lv & _ & Hlv & ->).
  rewrite Error_wired, Errorf_wired, Warn_wired, Warnf_wired,
    Info_wired, Infof_wired, Debug_wired, Debugf_wired.
  change (level (wired true lv v)) with lv.
  do 4 (split; [enabled|]).
  intros -> ->. injection Hlv as <-.
  rewrite !compose_eq. split; [reflexivity|]. split; reflexivity.
Qed.

Lemma fanout_witness :
  Info rt0 (wired true InfoLevel false) [fmt.Str "up"] world0
    = mkWorld ["INFO:  2017/05/01 10:00:00 up" ++ newline] [] [] None /\
  Debug rt0 (wired true InfoLevel false) [fmt.Str "up"] world0 = world0 /\
  Error rt0 (wired true InfoLevel false) [fmt.Str "up"] world0
    = mkWorld ["ERROR: 2017/05/01 10:00:00 up" ++ newline] []
              ["ERROR: 2017/05/01 10:00:00 up" ++ newline] None.
Proof.
  destruct (fanout rt0 "info" false (wired true InfoLevel false) eq_refl
              "" [fmt.Str "up"] world0) as (_ & _ & _ & _ & H).
  destruct (H eq_refl eq_refl) as (HI & HD & HE).
  rewrite HI, HD, HE. repeat split.
Defined.

(** ** Suppression *)

(** C6. A Debug, Info, Warn or Error call (plain or formatted) returns with
    the world unchanged whenever the logger's level is below that severity or
    the writer of that severity is nil; under a Disabled configuration this
    is so for all eight. *)
Theorem below_level_noop (rt : Runtime) (l : logger) (format : string)
  (msg : list fmt.Arg) (st : World) :
  (level l < ErrorLevel \/ error l = None ->
     Error rt l msg st = st /\ Errorf rt l format msg st = st) /\
  (level l < WarnLevel \/ warn l = None ->
     Warn rt l msg st = st /\ Warnf rt l format msg st = st) /\
  (level l < InfoLevel \/ info l = None ->
     Info rt l msg st = st /\ Infof rt l format msg st = st) /\
  (level l < DebugLevel \/ debug l = None ->
     Debug rt l msg st = st /\ Debugf rt l format msg st = st) /\
  (forall (w : option io.Writer) (v : bool),
     let d := fst (New w "disabled" v) in
     Error rt d msg st = st /\ Errorf rt d format msg st = st /\
     Warn rt d msg st = st /\ Warnf rt d format msg st = st /\
     Info rt d msg st = st /\ Infof rt d format msg st = st /\
     Debug rt d msg st = st /\ Debugf rt d format msg st = st).
Proof.
  assert (forall (sev : Level) (p : option log.Logger) (k : log.Logger -> World -> World),
            level l < sev \/ p = None ->
            (if (level l <? sev) || isNil p then st else on_logger p k st) = st) as G.
  { intros sev p k [Hlt| ->].
    - apply Z.ltb_lt in Hlt. now rewrite Hlt.
    - now rewrite orb_true_r. }
  split; [intros Hg; split; apply G, Hg|].
  split; [intros Hg; split; apply G, Hg|].
  split; [intros Hg; split; apply G, Hg|].
  split; [intros Hg; split; apply G, Hg|].
  intros w v. simpl. repeat split.
Qed.

Lemma below_level_noop_witness :
  Debug rt0 (wired true InfoLevel true) [fmt.Str "quiet"] world0 = world0 /\
  Debugf rt0 (wired true InfoLevel true) "quiet" [fmt.Str "quiet"] world0 = world0.
Proof.
  apply (proj1 (proj2 (proj2 (proj2
    (below_level_noop rt0 (wired true InfoLevel true) "quiet" [fmt.Str "quiet"] world0))))).
  left. reflexivity.
Defined.

(** ** Prefixes *)

(** C7. The composed text starts with the pid prefix and the call-site
    prefix exactly when the logger's level is [DebugLevel], whatever the
    severity of the call: at [DebugLevel] the text is the pid prefix, then
    the call-site prefix, then the body; at any other level it is the body
    alone. When the runtime cannot tell the call site, the call-site prefix
    is "???:0 ". An Error call under a "debug" configuration carries both
    prefixes; under an "info" configuration it carries none. *)
Theorem compose_prefixes (rt : Runtime) (l : logger) (format : string)
  (msg : list fmt.Arg) :
  (level l = DebugLevel ->
     forall (file : string) (ln : Z), Caller rt 3 = Some (file, ln) ->
       compose rt l msg
         = "[" ++ itoa (Getpid rt) ++ "] " ++ file ++ ":" ++ itoa ln ++ " "
           ++ fmt.Sprint msg /\
       composef rt l format msg
         = "[" ++ itoa (Getpid rt) ++ "] " ++ file ++ ":" ++ itoa ln ++ " "
           ++ Sprintf rt format msg) /\
  (level l = DebugLevel -> Caller rt 3 = None ->
     compose rt l msg
       = "[" ++ itoa (Getpid rt) ++ "] " ++ "???:0 " ++ fmt.Sprint msg /\
     composef rt l format msg
       = "[" ++ itoa (Getpid rt) ++ "] " ++ "???:0 " ++ Sprintf rt format msg) /\
  (level l <> DebugLevel ->
     compose rt l msg = fmt.Sprint msg /\
     composef rt l format msg = Sprintf rt format msg) /\
  (forall (v : bool) (st : World),
     Error rt (fst (New (Some sink) "debug" v)) msg st
       = appendTo true false true
           (line rt "ERROR: "
              ("[" ++ itoa (Getpid rt) ++ "] " ++ callSite rt ++ fmt.Sprint msg)) st /\
     Error rt (fst (New (Some sink) "info" v)) msg st
       = appendTo true false true (line rt "ERROR: " (fmt.Sprint msg)) st).
Proof.
  split; [|split; [|split; [|]]].
  - rewrite compose_eq, composef_eq. unfold callSite.
    intros -> file ln ->.
    repeat first [rewrite append_assoc | progress simpl]. split; reflexivity.
  - rewrite compose_eq, composef_eq. unfold callSite.
    intros -> ->. split; reflexivity.
  - rewrite compose_eq, composef_eq.
    intros Hne. apply Z.eqb_neq in Hne. rewrite Hne. split; reflexivity.
  - intros v st. change (Some sink) with (sinkArg true).
    rewrite (New_wired true "debug" DebugLevel v eq_refl).
    rewrite (New_wired true "info" InfoLevel v eq_refl).
    simpl fst. rewrite !Error_wired, !compose_eq. split; reflexivity.
Qed.

Lemma compose_prefixes_witness :
  compose rt0 (wired true DebugLevel false) [fmt.Str "x"; fmt.Val "1"; fmt.Val "2"]
    = "[4711] main.go:27 x1 2" /\
  compose (mkRuntime 4711 (fun _ => None) "" "" (fun f _ => f))
          (wired true DebugLevel false) [fmt.Val "1"; fmt.Val "2"]
    = "[4711] ???:0 1 2" /\
  compose rt0 (wired true InfoLevel false) [fmt.Val "1"; fmt.Val "2"] = "1 2".
Proof.
  split; [|split].
  - destruct (proj1 (compose_prefixes rt0 (wired true DebugLevel false) ""
                       [fmt.Str "x"; fmt.Val "1"; fmt.Val "2"])
                eq_refl "main.go" 27 eq_refl) as [H _].
    rewrite H. reflexivity.
  - destruct (proj1 (proj2 (compose_prefixes
                       (mkRuntime 4711 (fun _ => None) "" "" (fun f _ => f))
                       (wired true DebugLevel false) "" [fmt.Val "1"; fmt.Val "2"]))
                eq_refl eq_refl) as [H _].
    rewrite H. reflexivity.
  - destruct (proj1 (proj2 (proj2 (compose_prefixes rt0 (wired true InfoLevel false) ""
                       [fmt.Val "1"; fmt.Val "2"])))) as [H _].
    + discriminate.
    + rewrite H. reflexivity.
Defined.

(** ** A nil sink *)

(** C10. With a nil sink and a level name that parses, [New] succeeds. For
    every call, the sink's buffer stays as it was, and standard output,
    standard error and the exit status end up exactly as they do on the
    logger built with the sink. Error, Warn and Fatal calls that are enabled
    write their line to standard error; Info and Debug calls that are enabled
    write theirs to standard output exactly when the verbose flag is set. *)
Theorem nil_sink_discards (rt : Runtime) (s : string) (v : bool) :
  In s levelNames ->
  exists l0 l1 : logger,
    New None s v = (l0, None) /\
    New (Some sink) s v = (l1, None) /\
    level l0 = level l1 /\
    (forall (c : Call) (st : World),
       storage_out (invoke rt l0 c st) = storage_out st /\
       stdout_out (invoke rt l0 c st) = stdout_out (invoke rt l1 c st) /\
       stderr_out (invoke rt l0 c st) = stderr_out (invoke rt l1 c st) /\
       exited (invoke rt l0 c st) = exited (invoke rt l1 c st)) /\
    (forall (msg : list fmt.Arg) (st : World),
       (ErrorLevel <= level l0 ->
          Error rt l0 msg st
            = appendTo false false true (line rt "ERROR: " (compose rt l0 msg)) st) /\
       (WarnLevel <= level l0 ->
          Warn rt l0 msg st
            = appendTo false false true (line rt "WARN:  " (compose rt l0 msg)) st) /\
       (InfoLevel <= level l0 ->
          Info rt l0 msg st
            = appendTo false v false (line rt "INFO:  " (compose rt l0 msg)) st) /\
       (DebugLevel <= level l0 ->
          Debug rt l0 msg st
            = appendTo false v false (line rt "DEBUG: " (compose rt l0 msg)) st) /\
       Fatal rt l0 msg st
         = os.Exit 1
             (appendTo false false true (line rt "FATAL: " (compose rt l0 msg)) st)).
Proof.
  intros Hs. destruct (New_ok_names s Hs) as (lv & _ & Hlv).
  exists (wired false lv v), (wired true lv v).
  split; [exact (New_wired false s lv v Hlv)|].
  split; [exact (New_wired true s lv v Hlv)|].
  split; [reflexivity|].
  split.
  - intros c st.
    destruct c as [msg|f msg|msg|f msg|msg|f msg|msg|f msg|msg|f msg]; simpl invoke;
      rewrite ?Debug_wired, ?Debugf_wired, ?Info_wired, ?Infof_wired,
        ?Warn_wired, ?Warnf_wired, ?Error_wired, ?Errorf_wired,
        ?Fatal_wired, ?Fatalf_wired;
      try match goal with |- context [?a <=? lv] => destruct (a <=? lv) end;
      destruct v; repeat split.
  - intros msg st.
    rewrite Error_wired, Warn_wired, Info_wired, Debug_wired, Fatal_wired.
    change (level (wired false lv v)) with lv.
    do 4 (split; [enabled|]).
    reflexivity.
Qed.

Lemma nil_sink_discards_witness :
  exists l0 l1 : logger,
    New None "warning" true = (l0, None) /\
    New (Some sink) "warning" true = (l1, None) /\
    invoke rt0 l0 (CallError [fmt.Str "disk full"]) world0
      = mkWorld [] [] ["ERROR: 2017/05/01 10:00:00 disk full" ++ newline] None /\
    invoke rt0 l1 (CallError [fmt.Str "disk full"]) world0
      = mkWorld ["ERROR: 2017/05/01 10:00:00 disk full" ++ newline] []
                ["ERROR: 2017/05/01 10:00:00 disk full" ++ newline] None.
Proof.
  destruct (nil_sink_discards rt0 "warning" true) as (l0 & l1 & H0 & H1 & _).
  - simpl. tauto.
  - exists l0, l1. split; [exact H0|]. split; [exact H1|].
    injection H0 as <-. injection H1 as <-. split; reflexivity.
Defined.

(** ** Programs of calls *)

Lemma run_exited (rt : Runtime) (l : logger) (calls : list Call) (st : World) :
  exited st <> None -> run rt l calls st = st.
Proof.
  intros H. destruct calls as [|c rest]; [reflexivity|].
  simpl. destruct (exited st); [reflexivity | contradiction].
Qed.

Lemma Write_exited (w : io.Writer) (p : string) (st : World) :
  exited (Write w p st) = exited st.
Proof.
  revert st. induction w as [|d w IH]; intros st; [reflexivity|].
  simpl. rewrite IH. now destruct d.
Qed.

(** One call on a wired logger, all ten methods at once. *)
Lemma invoke_wired (rt : Runtime) (present v : bool) (lv : Level) (c : Call)
  (st : World) :
  invoke rt (wired present lv v) c st =
  let st' := if passes lv c
             then appendTo present (v && negb (toStderr c)) (toStderr c)
                    (lineOf rt (wired present lv v) c) st
             else st in
  if isFatal c then os.Exit 1 st' else st'.
Proof.
  destruct c; simpl invoke;
    rewrite ?Debug_wired, ?Debugf_wired, ?Info_wired, ?Infof_wired,
      ?Warn_wired, ?Warnf_wired, ?Error_wired, ?Errorf_wired,
      ?Fatal_wired, ?Fatalf_wired;
    destruct v; reflexivity.
Qed.

Lemma world_eta (st : World) :
  st = mkWorld (storage_out st) (stdout_out st) (stderr_out st) (exited st).
Proof.
  now destruct st.
Qed.

(** What a program leaves behind on a wired logger, stream by stream. *)
Lemma run_trace (rt : Runtime) (present v : bool) (lv : Level) (calls : list Call) :
  forall st : World,
    exited st = None ->
    run rt (wired present lv v) calls st =
    mkWorld
      (storage_out st
       ++ (if present then sinkLines rt (wired present lv v) calls else []))%list
      (stdout_out st
       ++ (if v then stdoutLines rt (wired present lv v) calls else []))%list
      (stderr_out st ++ stderrLines rt (wired present lv v) calls)%list
      (if existsb isFatal calls then Some 1 else None).
Proof.
  unfold sinkLines, stdoutLines, stderrLines.
  change (level (wired present lv v)) with lv.
  induction calls as [|c rest IH]; intros st Hst.
  - simpl. rewrite (world_eta st) at 1. rewrite Hst.
    destruct present, v; simpl; now rewrite ?app_nil_r.
  - simpl run. rewrite Hst, invoke_wired. cbv zeta.
    destruct (isFatal c) eqn:Hf.
    + rewrite run_exited by discriminate.
      assert (passes lv c = true /\ toStderr c = true) as [Hp Ht]
        by (destruct c; try discriminate Hf; split; reflexivity).
      simpl. rewrite Hf, Hp, Ht. simpl. rewrite Hp, Ht, andb_false_r. simpl.
      destruct present, v; simpl; now rewrite ?app_nil_r.
    + rewrite IH by (destruct (passes lv c); exact Hst).
      simpl. rewrite Hf. simpl.
      destruct (passes lv c), (toStderr c), present, v; simpl;
        now rewrite <- ?app_assoc.
Qed.

(** ** More on the level parser *)

Lemma length_append (a b : string) :
  String.length (a ++ b) = (String.length a + String.length b)%nat.
Proof.
  induction a as [|ch a IH]; simpl; [reflexivity | now rewrite IH].
Qed.

Lemma append_cancel_r (q a b : string) : a ++ q = b ++ q -> a = b.
Proof.
  revert b. induction a as [|ch a IH]; intros [|ch' b] H; simpl in H.
  - reflexivity.
  - apply (f_equal String.length) in H. simpl in H. rewrite length_append in H. lia.
  - apply (f_equal String.length) in H. simpl in H. rewrite length_append in H. lia.
  - injection H as -> H. f_equal. now apply IH.
Qed.

(** X1. Two names that parse to the same level are the same name. *)
Theorem levelOfStr_injective (s1 s2 : string) (l : Level) :
  levelOfStr s1 = (l, None) -> levelOfStr s2 = (l, None) -> s1 = s2.
Proof.
  intros H1 H2.
  destruct (levelOfStr_parsed s1 l H1) as [[-> E1]|[[-> E1]|[[-> E1]|[[-> E1]|[-> E1]]]]];
    destruct (levelOfStr_parsed s2 l H2) as [[-> E2]|[[-> E2]|[[-> E2]|[[-> E2]|[-> E2]]]]];
    try reflexivity; rewrite E1 in E2; discriminate E2.
Qed.

Lemma levelOfStr_injective_witness : "warning" = "warning".
Proof.
  exact (levelOfStr_injective "warning" "warning" WarnLevel eq_refl eq_refl).
Defined.

(** X2. The parser's error identifies the rejected input: two inputs that
    are rejected with the same error are the same string, and an input that
    is rejected is never one of the five names. *)
Theorem levelOfStr_error_identifies_input (s1 s2 : string) (l1 l2 : Level)
  (e : goerror) :
  levelOfStr s1 = (l1, Some e) -> levelOfStr s2 = (l2, Some e) ->
  s1 = s2 /\ ~ In s1 levelNames.
Proof.
  assert (forall s l e', levelOfStr s = (l, Some e') -> ~ In s levelNames) as Hnot.
  { intros s l e' H Hin. simpl in Hin.
    destruct Hin as [<-|[<-|[<-|[<-|[<-|[]]]]]]; discriminate H. }
  intros H1 H2. split; [|exact (Hnot _ _ _ H1)].
  rewrite (levelOfStr_unknown s1 (Hnot _ _ _ H1)) in H1.
  rewrite (levelOfStr_unknown s2 (Hnot _ _ _ H2)) in H2.
  injection H1 as _ <-. injection H2 as _ H2.
  apply append_cancel_r in H2. now symmetry.
Qed.

Lemma levelOfStr_error_identifies_input_witness :
  "Info" = "Info" /\ ~ In "Info" levelNames.
Proof.
  exact (levelOfStr_error_identifies_input "Info" "Info" InfoLevel InfoLevel
           _ eq_refl eq_refl).
Defined.

(** ** More on the constructor *)

(** The cases of a successful [New], for any writer argument. *)
Ltac new_cases H :=
  match type of H with
  | New ?wr ?s ?vb = (?l, None) =>
      let lv := fresh "lv" in
      let e := fresh "e" in
      let E := fresh "E" in
      destruct (levelOfStr s) as [lv [e|]] eqn:E;
      [ rewrite (New_bare _ _ _ _ _ E) in H; discriminate H
      | destruct (levelOfStr_parsed s lv E)
          as [[-> ->]|[[-> ->]|[[-> ->]|[[-> ->]|[-> ->]]]]];
        clear E; destruct vb; cbv in H; injection H as <- ]
  end.

Lemma New_ok_fatal (wr : option io.Writer) (s : string) (vb : bool) (l : logger) :
  New wr s vb = (l, None) -> exists lg : log.Logger, fatal l = Some lg.
Proof.
  intros H. new_cases H; eexists; reflexivity.
Qed.

(** X3. [New] reports an error exactly when the level string is none of the
    five names, and the error is the parser's own. *)
Theorem New_succeeds_iff (wr : option io.Writer) (s : string) (vb : bool) :
  (snd (New wr s vb) = None <-> In s levelNames) /\
  snd (New wr s vb) = snd (levelOfStr s).
Proof.
  assert (snd (New wr s vb) = snd (levelOfStr s)) as Hsame.
  { unfold New. destruct (levelOfStr s) as [lv [e|]] eqn:E; [reflexivity|].
    destruct (levelOfStr_parsed s lv E) as [[-> ->]|[[-> ->]|[[-> ->]|[[-> ->]|[-> ->]]]]];
      destruct vb; reflexivity. }
  split; [|exact Hsame]. rewrite Hsame. split.
  - intros H. destruct (levelOfStr s) as [lv [e|]] eqn:E; [discriminate H|].
    destruct (levelOfStr_parsed s lv E) as [[-> _]|[[-> _]|[[-> _]|[[-> _]|[-> _]]]]];
      simpl; tauto.
  - simpl. intros [<-|[<-|[<-|[<-|[<-|[]]]]]]; reflexivity.
Qed.

(** X4. What a successful [New] has wired, whatever writer it was given: the
    level is one of the five, the writer and the verbose flag are stored as
    given, the fatal logger is there, and the logger of each other severity
    is nil exactly when the level is below that severity. *)
Theorem New_wiring_invariant (wr : option io.Writer) (s : string) (vb : bool)
  (l : logger) :
  New wr s vb = (l, None) ->
  levelOfStr s = (level l, None) /\ In (level l) levels /\
  w l = wr /\ verbose l = vb /\
  fatal l <> None /\
  (error l = None <-> level l < ErrorLevel) /\
  (warn l = None <-> level l < WarnLevel) /\
  (info l = None <-> level l < InfoLevel) /\
  (debug l = None <-> level l < DebugLevel).
Proof.
  intros H. new_cases H; cbn;
    repeat match goal with
           | |- _ /\ _ => split
           | |- _ <-> _ => split; intros Hx; try reflexivity; try discriminate Hx
           | |- _ <> _ => discriminate
           | |- _ \/ _ => tauto
           | |- _ = _ => reflexivity
           end.
Qed.

Lemma New_wiring_invariant_witness :
  debug (wired true InfoLevel false) = None <-> level (wired true InfoLevel false) < DebugLevel.
Proof.
  exact (proj2 (proj2 (proj2 (proj2 (proj2 (proj2 (proj2 (proj2
    (New_wiring_invariant (Some sink) "info" false (wired true InfoLevel false)
       eq_refl))))))))).
Defined.

(** X5. The logger that comes with [New]'s error is inert: its level is
    [DisabledLevel] (not the [InfoLevel] the parser returned with the error),
    and no program of calls, fatal ones included, changes the world. *)
Theorem New_failure_inert (wr : option io.Writer) (s : string) (vb : bool) :
  ~ In s levelNames ->
  fst (levelOfStr s) = InfoLevel /\
  level (fst (New wr s vb)) = DisabledLevel /\
  forall (rt : Runtime) (calls : list Call) (st : World),
    run rt (fst (New wr s vb)) calls st = st.
Proof.
  intros Hs. pose proof (levelOfStr_unknown s Hs) as E.
  rewrite (New_bare wr s vb _ _ E), E. simpl fst.
  split; [reflexivity|]. split; [reflexivity|].
  intros rt calls. induction calls as [|c rest IH]; intros st; [reflexivity|].
  simpl. destruct (exited st); [reflexivity|].
  replace (invoke rt (bare wr vb) c st) with st by (destruct c; reflexivity).
  apply IH.
Qed.

Lemma New_failure_inert_witness :
  run rt0 (fst (New None "DEBUG" true))
      [CallError [fmt.Str "lost"]; CallFatal [fmt.Str "lost too"]] world0
  = world0.
Proof.
  apply (New_failure_inert None "DEBUG" true).
  simpl. intros [H|[H|[H|[H|[H|[]]]]]]; discriminate H.
Defined.

(** ** Exit *)

(** Behind its guard, a [Print] leaves the exit status alone. *)
Lemma guarded_exited (rt : Runtime) (b : bool) (p : option log.Logger)
  (body : string) (st : World) :
  exited (if b || isNil p then st
          else on_logger p (fun lg => log.Print rt lg [fmt.Str body]) st)
  = exited st.
Proof.
  destruct (b || isNil p); [reflexivity|].
  destruct p as [lg|]; [|reflexivity].
  unfold on_logger, log.Print, log.Output. apply Write_exited.
Qed.

(** X6. A Debug, Info, Warn or Error call, plain or formatted, never ends
    the process, on any logger value. *)
Theorem nonfatal_never_exits (rt : Runtime) (l : logger) (c : Call) (st : World) :
  isFatal c = false -> exited (invoke rt l c st) = exited st.
Proof.
  intros Hc. destruct c; try discriminate Hc; apply guarded_exited.
Qed.

Lemma nonfatal_never_exits_witness :
  exited (invoke rt0 (wired true DebugLevel true) (CallError [fmt.Str "bad"]) world0)
  = exited world0.
Proof.
  exact (nonfatal_never_exits rt0 (wired true DebugLevel true)
           (CallError [fmt.Str "bad"]) world0 eq_refl).
Defined.

(** X7. On a logger that [New] built without error, for any writer, nothing
    after a fatal call runs: the program ends as if the fatal call were its
    last, and a process that was running has exited with status 1. *)
Theorem fatal_ends_program (rt : Runtime) (wr : option io.Writer) (s : string)
  (vb : bool) (l : logger) (pre post : list Call) (c : Call) :
  New wr s vb = (l, None) ->
  isFatal c = true ->
  forall st : World,
    run rt l (pre ++ c :: post) st = run rt l (pre ++ [c]) st /\
    (exited st = None -> exited (run rt l (pre ++ c :: post) st) = Some 1).
Proof.
  intros H Hc. destruct (New_ok_fatal wr s vb l H) as [lg Hlg].
  assert (forall c' st', isFatal c' = true -> exited (invoke rt l c' st') = Some 1)
    as Hexit.
  { intros c' st' Hc'. destruct c'; try discriminate Hc'; simpl;
      unfold Fatal, Fatalf; rewrite Hlg; reflexivity. }
  induction pre as [|a pre IH]; intros st; simpl.
  - destruct (exited st) eqn:Hst.
    + split; [reflexivity | discriminate].
    + rewrite (run_exited rt l post) by (rewrite Hexit by exact Hc; discriminate).
      split; [reflexivity | intros _; now apply Hexit].
  - destruct (exited st) eqn:Hst.
    + split; [reflexivity | discriminate].
    + destruct (IH (invoke rt l a st)) as [IH1 IH2].
      split; [exact IH1 | intros _].
      destruct (isFatal a) eqn:Ha.
      * rewrite run_exited by (rewrite Hexit by exact Ha; discriminate).
        now apply Hexit.
      * apply IH2. rewrite <- Hst.
        destruct a; try discriminate Ha; apply guarded_exited.
Qed.

Lemma fatal_ends_program_witness :
  run rt0 (wired true InfoLevel false)
      ([CallInfo [fmt.Str "a"]] ++ CallFatal [fmt.Str "b"] :: [CallInfo [fmt.Str "c"]])
      world0
  = run rt0 (wired true InfoLevel false)
      ([CallInfo [fmt.Str "a"]] ++ [CallFatal [fmt.Str "b"]]) world0.
Proof.
  exact (proj1 (fatal_ends_program rt0 (Some sink) "info" false
                  (wired true InfoLevel false)
                  [CallInfo [fmt.Str "a"]] [CallInfo [fmt.Str "c"]]
                  (CallFatal [fmt.Str "b"]) eq_refl eq_refl world0)).
Defined.

(** ** What a program leaves in each stream *)

(** X8. The sink receives, in call order, one line for every call that is
    reached and passes the level test, and nothing else: no line is lost,
    repeated or reordered. *)
Theorem program_sink_log (rt : Runtime) (s : string) (vb : bool) (l : logger)
  (calls : list Call) (st : World) :
  New (Some sink) s vb = (l, None) ->
  exited st = None ->
  storage_out (run rt l calls st) = (storage_out st ++ sinkLines rt l calls)%list.
Proof.
  intros H Hst. destruct (New_ok_inv true s vb l H) as (lv & _ & _ & ->).
  now rewrite run_trace.
Qed.

Lemma program_sink_log_witness :
  storage_out
    (run rt0 (wired true WarnLevel true)
       [CallInfo [fmt.Str "skipped"]; CallWarn [fmt.Str "kept"];
        CallFatal [fmt.Str "last"]; CallError [fmt.Str "never reached"]] world0)
  = ["WARN:  2017/05/01 10:00:00 kept" ++ newline;
     "FATAL: 2017/05/01 10:00:00 last" ++ newline].
Proof.
  rewrite (program_sink_log rt0 "warning" true (wired true WarnLevel true)
             _ world0 eq_refl eq_refl).
  reflexivity.
Defined.

(** X9. With or without a sink, standard error receives, in call order, the
    lines of the Warn, Error and Fatal calls that are reached and pass the
    level test; standard output receives those of the Info and Debug calls
    when the verbose flag is set, and nothing when it is not. *)
Theorem program_console_log (rt : Runtime) (present : bool) (s : string) (vb : bool)
  (l : logger) (calls : list Call) (st : World) :
  New (sinkArg present) s vb = (l, None) ->
  exited st = None ->
  stderr_out (run rt l calls st) = (stderr_out st ++ stderrLines rt l calls)%list /\
  stdout_out (run rt l calls st)
    = (stdout_out st ++ (if vb then stdoutLines rt l calls else []))%list.
Proof.
  intros H Hst. destruct (New_ok_inv present s vb l H) as (lv & _ & _ & ->).
  rewrite run_trace by exact Hst. split; reflexivity.
Qed.

Lemma program_console_log_witness :
  stderr_out
    (run rt0 (wired false InfoLevel true)
       [CallInfo [fmt.Str "i"]; CallError [fmt.Str "e"]; CallDebug [fmt.Str "d"]] world0)
    = ["ERROR: 2017/05/01 10:00:00 e" ++ newline] /\
  stdout_out
    (run rt0 (wired false InfoLevel true)
       [CallInfo [fmt.Str "i"]; CallError [fmt.Str "e"]; CallDebug [fmt.Str "d"]] world0)
    = ["INFO:  2017/05/01 10:00:00 i" ++ newline].
Proof.
  destruct (program_console_log rt0 false "info" true (wired false InfoLevel true)
              [CallInfo [fmt.Str "i"]; CallError [fmt.Str "e"]; CallDebug [fmt.Str "d"]]
              world0 eq_refl eq_refl) as [He Ho].
  rewrite He, Ho. split; reflexivity.
Defined.

(** X10. A program ends with exit status 1 when it makes a fatal call, and
    is still running after its last call when it makes none; the level and
    the verbose flag play no part. *)
Theorem program_exit_status (rt : Runtime) (present : bool) (s : string) (vb : bool)
  (l : logger) (calls : list Call) (st : World) :
  New (sinkArg present) s vb = (l, None) ->
  exited st = None ->
  exited (run rt l calls st) = if existsb isFatal calls then Some 1 else None.
Proof.
  intros H Hst. destruct (New_ok_inv present s vb l H) as (lv & _ & _ & ->).
  now rewrite run_trace.
Qed.

Lemma program_exit_status_witness :
  exited (run rt0 (wired true DisabledLevel false)
            [CallError [fmt.Str "e"]; CallFatalf "f" []] world0)
  = Some 1.
Proof.
  exact (program_exit_status rt0 true "disabled" false (wired true DisabledLevel false)
           [CallError [fmt.Str "e"]; CallFatalf "f" []] world0 eq_refl eq_refl).
Defined.

(** X11. Without the verbose flag no program ever writes to standard output,
    at any level, with or without a sink. *)
Theorem quiet_stdout (rt : Runtime) (present : bool) (s : string) (l : logger)
  (calls : list Call) (st : World) :
  New (sinkArg present) s false = (l, None) ->
  stdout_out (run rt l calls st) = stdout_out st.
Proof.
  intros H. destruct (New_ok_inv present s false l H) as (lv & _ & _ & ->).
  destruct (exited st) eqn:Hst.
  - now rewrite run_exited by (rewrite Hst; discriminate).
  - rewrite run_trace by exact Hst. simpl. apply app_nil_r.
Qed.

Lemma quiet_stdout_witness :
  stdout_out (run rt0 (wired true DebugLevel false)
                [CallDebug [fmt.Str "d"]; CallInfof "i" []] world0)
  = stdout_out world0.
Proof.
  exact (quiet_stdout rt0 true "debug" (wired true DebugLevel false)
           [CallDebug [fmt.Str "d"]; CallInfof "i" []] world0 eq_refl).
Defined.

(** X12. The verbose flag changes standard output only: the same program
    leaves the same sink content, the same standard error and the same exit
    status with the flag set as without it. *)
Theorem verbose_only_adds_stdout (rt : Runtime) (present : bool) (s : string)
  (l0 l1 : logger) (calls : list Call) (st : World) :
  New (sinkArg present) s false = (l0, None) ->
  New (sinkArg present) s true = (l1, None) ->
  storage_out (run rt l1 calls st) = storage_out (run rt l0 calls st) /\
  stderr_out (run rt l1 calls st) = stderr_out (run rt l0 calls st) /\
  exited (run rt l1 calls st) = exited (run rt l0 calls st).
Proof.
  intros H0 H1.
  destruct (New_ok_inv present s false l0 H0) as (lv & _ & Hlv & ->).
  destruct (New_ok_inv present s true l1 H1) as (lv' & _ & Hlv' & ->).
  rewrite Hlv in Hlv'. injection Hlv' as <-.
  destruct (exited st) eqn:Hst.
  - rewrite !run_exited by (rewrite Hst; discriminate). repeat split.
  - rewrite !run_trace by exact Hst. repeat split.
Qed.

Lemma verbose_only_adds_stdout_witness :
  storage_out (run rt0 (wired true InfoLevel true) [CallInfo [fmt.Str "i"]] world0)
  = storage_out (run rt0 (wired true InfoLevel false) [CallInfo [fmt.Str "i"]] world0).
Proof.
  exact (proj1 (verbose_only_adds_stdout rt0 true "info"
                  (wired true InfoLevel false) (wired true InfoLevel true)
                  [CallInfo [fmt.Str "i"]] world0 eq_refl eq_refl)).
Defined.

(** ** Operands, formats and prefixes *)

(** X13. Putting the pid and the caller in front of the operands does not
    disturb their spacing: a plain call writes what the same call writes on
    the single string [fmt.Sprint] makes of its operands, and a formatted
    call writes what the plain call writes on the string [fmt.Sprintf]
    makes. This holds on every logger value and for all five severities. *)
Theorem operands_flatten (rt : Runtime) (l : logger) (format : string)
  (msg : list fmt.Arg) (st : World) :
  compose rt l msg = compose rt l [fmt.Str (fmt.Sprint msg)] /\
  composef rt l format msg = compose rt l [fmt.Str (Sprintf rt format msg)] /\
  Debug rt l msg st = Debug rt l [fmt.Str (fmt.Sprint msg)] st /\
  Info rt l msg st = Info rt l [fmt.Str (fmt.Sprint msg)] st /\
  Warn rt l msg st = Warn rt l [fmt.Str (fmt.Sprint msg)] st /\
  Error rt l msg st = Error rt l [fmt.Str (fmt.Sprint msg)] st /\
  Fatal rt l msg st = Fatal rt l [fmt.Str (fmt.Sprint msg)] st /\
  Debugf rt l format msg st = Debug rt l [fmt.Str (Sprintf rt format msg)] st /\
  Infof rt l format msg st = Info rt l [fmt.Str (Sprintf rt format msg)] st /\
  Warnf rt l format msg st = Warn rt l [fmt.Str (Sprintf rt format msg)] st /\
  Errorf rt l format msg st = Error rt l [fmt.Str (Sprintf rt format msg)] st /\
  Fatalf rt l format msg st = Fatal rt l [fmt.Str (Sprintf rt format msg)] st.
Proof.
  assert (compose rt l msg = compose rt l [fmt.Str (fmt.Sprint msg)]) as Hc.
  { rewrite !compose_eq, Sprint_one_string. reflexivity. }
  assert (composef rt l format msg = compose rt l [fmt.Str (Sprintf rt format msg)])
    as Hf.
  { rewrite compose_eq, composef_eq, Sprint_one_string. reflexivity. }
  unfold Debug, Info, Warn, Error, Fatal, Debugf, Infof, Warnf, Errorf, Fatalf.
  rewrite <- Hc, <- Hf. repeat split.
Qed.

(** ** A console stream as the sink *)

(** X14. [New] does not look at which writer it is given: when the caller
    hands it [os.Stderr] as the sink, every Error call that passes the level
    test, and every Fatal call, writes its line to standard error twice. *)
Theorem stderr_as_sink_doubles (rt : Runtime) (s : string) (vb : bool) (l : logger)
  (msg : list fmt.Arg) (st : World) :
  New (Some os.Stderr) s vb = (l, None) ->
  (ErrorLevel <= level l ->
   Error rt l msg st
   = mkWorld (storage_out st) (stdout_out st)
       (stderr_out st ++ [line rt "ERROR: " (compose rt l msg);
                          line rt "ERROR: " (compose rt l msg)])%list
       (exited st)) /\
  Fatal rt l msg st
  = mkWorld (storage_out st) (stdout_out st)
      (stderr_out st ++ [line rt "FATAL: " (compose rt l msg);
                         line rt "FATAL: " (compose rt l msg)])%list
      (Some 1).
Proof.
  intros H. new_cases H; (split; [intros Hle; try (now cbv in Hle)|]);
    unfold Error, Fatal, on_logger; cbn [level error fatal isNil orb];
    try change (log.mkLogger ?p ?f ?o) with (log.New o p f);
    rewrite ?Fatal_line, ?Print_line; cbn [Write write_dest os.Exit];
    cbn [storage_out stdout_out stderr_out exited];
    now rewrite <- app_assoc.
Qed.

Lemma stderr_as_sink_doubles_witness :
  stderr_out
    (Fatal rt0 (fst (New (Some os.Stderr) "disabled" false)) [fmt.Str "abort"] world0)
  = ["FATAL: 2017/05/01 10:00:00 abort" ++ newline;
     "FATAL: 2017/05/01 10:00:00 abort" ++ newline].
Proof.
  rewrite (proj2 (stderr_as_sink_doubles rt0 "disabled" false
                    (fst (New (Some os.Stderr) "disabled" false))
                    [fmt.Str "abort"] world0 eq_refl)).
  reflexivity.
Defined.

(** ** The example program *)



(** ** Raising the level *)

Lemma passes_mono (lv lv' : Level) (c : Call) :
  lv <= lv' -> passes lv c = true -> passes lv' c = true.
Proof.
  intros Hle. destruct c; simpl; rewrite ?Z.leb_le; try reflexivity; lia.
Qed.

Lemma filter_length_le {A : Type} (f g : A -> bool) (xs : list A) :
  (forall x, f x = true -> g x = true) ->
  (List.length (filter f xs) <= List.length (filter g xs))%nat.
Proof.
  intros Hfg. induction xs as [|x xs IH]; simpl; [lia|].
  destruct (f x) eqn:Hf.
  - rewrite (Hfg x Hf). simpl. lia.
  - destruct (g x); simpl; lia.
Qed.

(** X16. A more verbose level never logs less: of two loggers built on the
    sink, the one with the higher level leaves at least as many lines in the
    sink, whatever the program and the verbose flags. *)
Theorem higher_level_logs_more (rt : Runtime) (s s' : string) (vb vb' : bool)
  (l l' : logger) (calls : list Call) (st : World) :
  New (Some sink) s vb = (l, None) ->
  New (Some sink) s' vb' = (l', None) ->
  level l <= level l' ->
  (List.length (storage_out (run rt l calls st))
   <= List.length (storage_out (run rt l' calls st)))%nat.
Proof.
  intros H H' Hle.
  destruct (New_ok_inv true s vb l H) as (lv & _ & _ & ->).
  destruct (New_ok_inv true s' vb' l' H') as (lv' & _ & _ & ->).
  change (lv <= lv') in Hle.
  destruct (exited st) eqn:Hst.
  - rewrite !run_exited by (rewrite Hst; discriminate). lia.
  - rewrite !run_trace by exact Hst. cbn [storage_out].
    unfold sinkLines. rewrite !List.length_app, !List.length_map.
    change (level (wired true lv vb)) with lv.
    change (level (wired true lv' vb')) with lv'.
    pose proof (filter_length_le (passes lv) (passes lv') (executed calls)
                  (fun c => passes_mono lv lv' c Hle)).
    lia.
Qed.

Lemma higher_level_logs_more_witness :
  (List.length (storage_out (run rt0 (wired true ErrorLevel false)
                          [CallInfo [fmt.Str "i"]; CallError [fmt.Str "e"]] world0))
   <= List.length (storage_out (run rt0 (wired true DebugLevel true)
                             [CallInfo [fmt.Str "i"]; CallError [fmt.Str "e"]] world0)))%nat.
Proof.
  apply (higher_level_logs_more rt0 "error" "debug" false true
           (wired true ErrorLevel false) (wired true DebugLevel true)
           [CallInfo [fmt.Str "i"]; CallError [fmt.Str "e"]] world0 eq_refl eq_refl).
  cbv. discriminate.
Defined.
